(** * VectorDBService: a flat L2 similarity index with pickled documents

    A shallow embedding of [vector_db_service.py]: the service object
    (an index of embeddings and a parallel list of documents), its
    [add_document], [search] and [get_relevant_knowledge] methods, the
    starter knowledge inserted on first run, and [save] / [load] against
    the two files [faiss.index] and [data.pkl].

    Conventions.
    - Vector components are float32 in the program; they are idealised
      here as exact rationals, so that distances can be compared and
      computed.
    - The sentence transformer is an opaque function [encode] from a
      text to its embedding (a section variable below).  It is total:
      a call in which the model raises leaves the method before it has
      changed anything, and is not a completed operation.  All stored
      and queried vectors come from [encode], so the index's check of
      the vector length is not modelled.
    - [faiss] is a library, not part of the sources; its flat index is
      modelled from the specification of the index (module [faiss]),
      except that its [search] refuses a [k] that is not positive, as
      the library does.
    - Python exceptions are values of [exn]; a computation that may
      raise returns a [result].  Code that touches the file system runs
      in [IO], which threads the contents of the database directory. *)

From stdpp Require Import base gmap list strings sorting.
From Stdlib Require Import QArith Lqa.

Local Open Scope string_scope.
Local Open Scope Z_scope.

(** ** Data *)

Definition Embedding : Type := list Q.

Abbreviation Metadata := (gmap string string).

(** A stored document, [{"text": ..., "metadata": ...}]. *)
Record Document : Type := mkDocument {
  text : string;
  metadata : Metadata
}.

(** ** Exceptions *)

Inductive exn : Type :=
  | AssertionError
  | IndexError (position : nat)
  | FileNotFoundError
  | UnpicklingError
  | RuntimeError
  | OSError.

Inductive result (A : Type) : Type :=
  | Ok (a : A)
  | Raise (e : exn).
Arguments Ok {A} a.
Arguments Raise {A} e.

Definition bind_result {A B : Type} (m : result A) (k : A → result B) : result B :=
  match m with
  | Ok a => k a
  | Raise e => Raise e
  end.

Notation "'let!' x ':=' m 'in' k" := (bind_result m (fun x => k))
  (at level 10, x pattern, m at level 100, k at level 200).

(** ** The index *)

Module faiss.

(** Modelled from the spec: [faiss.IndexFlatL2], the library's flat
    index, is not part of the sources.  Section 4.1 of the
    specification describes it as an append-only ordered collection
    of embeddings searched by a linear scan. *)
Record IndexFlatL2 : Type := mkIndex {
  d : nat;
  xb : list Embedding
}.

Definition new (dim : nat) : IndexFlatL2 := mkIndex dim [].

Definition ntotal (ix : IndexFlatL2) : Z := Z.of_nat (length (xb ix)).

(** Modelled from the spec: [add] appends to the internal ordered
    collection. *)
Definition add (ix : IndexFlatL2) (x : Embedding) : IndexFlatL2 :=
  mkIndex (d ix) (xb ix ++ [x]).

(** Squared Euclidean distance. *)
Fixpoint fvec_L2sqr (x y : Embedding) : Q :=
  match x, y with
  | a :: x', b :: y' => ((a - b) * (a - b) + fvec_L2sqr x' y')%Q
  | _, _ => 0%Q
  end.

(** A search hit: the position of a stored embedding and its distance
    to the query. *)
Definition hit : Type := nat * Q.

(** The linear scan: one hit per stored embedding, in insertion
    order, the first one at position [pos]. *)
Fixpoint scan (q : Embedding) (pos : nat) (xs : list Embedding) : list hit :=
  match xs with
  | [] => []
  | x :: xs' => (pos, fvec_L2sqr q x) :: scan q (S pos) xs'
  end.

(** [place h l] puts [h] in front of the first hit of [l] that is not
    nearer than [h]. *)
Fixpoint place (h : hit) (l : list hit) : list hit :=
  match l with
  | [] => [h]
  | h' :: l' => if Qle_bool (snd h) (snd h') then h :: l else h' :: place h l'
  end.

Definition rank (l : list hit) : list hit := foldr place [] l.

(** Modelled from the spec: the hits of a search for [k] neighbours
    are [(position, distance)] pairs, [min(k, total_count)] of them,
    ascending by squared Euclidean distance to the query, ties broken
    by ascending position. *)
Definition nearest (ix : IndexFlatL2) (q : Embedding) (k : Z) : list hit :=
  take (Z.to_nat k) (rank (scan q 0 (xb ix))).

(** [index.search(x, k)].  The library refuses a [k] that is not
    positive: its [search] starts with [assert k > 0]. *)
Definition search (ix : IndexFlatL2) (q : Embedding) (k : Z) : result (list hit) :=
  if bool_decide (0 < k) then Ok (nearest ix q k) else Raise AssertionError.

End faiss.

(** The order in which hits are reported: nearer first, and among
    equally distant hits the one inserted first. *)
Definition hit_lt (h1 h2 : faiss.hit) : Prop :=
  (snd h1 < snd h2)%Q ∨ ((snd h1 == snd h2)%Q ∧ (fst h1 < fst h2)%nat).

(** ** The service object *)

Record VectorDBService : Type := mkService {
  index : faiss.IndexFlatL2;
  documents : list Document
}.

(** [self.dimension] *)
Definition dimension : nat := 384.

(** The state built by [faiss.IndexFlatL2(self.dimension)] and
    [self.documents = []]. *)
Definition fresh : VectorDBService := mkService (faiss.new dimension) [].

(** The two collections have the same number of entries. *)
Definition consistent (self : VectorDBService) : Prop :=
  faiss.ntotal (index self) = Z.of_nat (length (documents self)).

(** ** The database directory *)

(** What a file of the directory holds: nothing (no such file), bytes
    that do not deserialize (truncated or damaged), or the
    serialization of a value. *)
Inductive file (A : Type) : Type :=
  | Absent
  | Garbled
  | Holds (a : A).
Arguments Absent {A}.
Arguments Garbled {A}.
Arguments Holds {A} a.

(** [self.index_file] and [self.data_file]. *)
Record Disk : Type := mkDisk {
  index_file : file faiss.IndexFlatL2;
  data_file : file (list Document)
}.

Definition no_artifacts : Disk := mkDisk Absent Absent.

(** [Path.exists] *)
Definition file_exists {A : Type} (f : file A) : bool :=
  match f with
  | Absent => false
  | _ => true
  end.

(** Whatever both files hold agrees in length. *)
Definition coherent (disk : Disk) : Prop :=
  ∀ ix docs, index_file disk = Holds ix → data_file disk = Holds docs →
    faiss.ntotal ix = Z.of_nat (length docs).

(** ** File-system computations *)

Definition IO (A : Type) : Type := Disk → result A * Disk.

Definition ret {A : Type} (a : A) : IO A := fun disk => (Ok a, disk).

Definition raise {A : Type} (e : exn) : IO A := fun disk => (Raise e, disk).

Definition bind {A B : Type} (m : IO A) (k : A → IO B) : IO B :=
  fun disk =>
    match m disk with
    | (Ok a, disk') => k a disk'
    | (Raise e, disk') => (Raise e, disk')
    end.

(** [try: body except Exception as e: handler]; what [body] did to the
    directory before raising stays done. *)
Definition try_except {A : Type} (body : IO A) (handler : exn → IO A) : IO A :=
  fun disk =>
    match body disk with
    | (Ok a, disk') => (Ok a, disk')
    | (Raise e, disk') => handler e disk'
    end.

Notation "'do' x '<-' m ';' k" := (bind m (fun x => k))
  (at level 10, x pattern, m at level 100, k at level 200).

(** Where a [save] is interrupted, when it is: [faiss.write_index]
    cannot open its file, or fails while writing it; [open(.., 'wb')]
    fails; [pickle.dump] fails. *)
Inductive save_fault : Type :=
  | index_open_fails
  | index_write_fails
  | data_open_fails
  | data_dump_fails.

Global Instance save_fault_eq_dec : EqDecision save_fault.
Proof. solve_decision. Defined.

Definition set_index_file (c : file faiss.IndexFlatL2) : IO unit :=
  fun disk => (Ok (), mkDisk c (data_file disk)).

Definition set_data_file (c : file (list Document)) : IO unit :=
  fun disk => (Ok (), mkDisk (index_file disk) c).

(** [faiss.write_index(index, fname)]: opens [fname] for writing, which
    empties it, then writes the index. *)
Definition write_index (fault : option save_fault) (ix : faiss.IndexFlatL2) : IO unit :=
  match fault with
  | Some index_open_fails => raise RuntimeError
  | Some index_write_fails => do _ <- set_index_file Garbled; raise RuntimeError
  | _ => set_index_file (Holds ix)
  end.

(** [open(self.data_file, 'wb')]: empties the file. *)
Definition open_wb (fault : option save_fault) : IO unit :=
  match fault with
  | Some data_open_fails => raise OSError
  | _ => set_data_file Garbled
  end.

(** [pickle.dump(obj, f)] *)
Definition pickle_dump (fault : option save_fault) (docs : list Document) : IO unit :=
  match fault with
  | Some data_dump_fails => raise OSError
  | _ => set_data_file (Holds docs)
  end.

(** [faiss.read_index(fname)] *)
Definition read_index : IO faiss.IndexFlatL2 :=
  fun disk =>
    match index_file disk with
    | Holds ix => (Ok ix, disk)
    | Garbled => (Raise RuntimeError, disk)
    | Absent => (Raise RuntimeError, disk)
    end.

(** [open(self.data_file, 'rb')] followed by [pickle.load(f)] *)
Definition pickle_load : IO (list Document) :=
  fun disk =>
    match data_file disk with
    | Holds docs => (Ok docs, disk)
    | Garbled => (Raise UnpicklingError, disk)
    | Absent => (Raise FileNotFoundError, disk)
    end.

(** ** Methods *)

(** [metadata or {}] *)
Definition or_empty (metadata : option Metadata) : Metadata :=
  match metadata with
  | Some m => if decide (m = ∅) then ∅ else m
  | None => ∅
  end.

(** [self.documents[idx]] *)
Definition getitem (docs : list Document) (idx : nat) : result Document :=
  match docs !! idx with
  | Some doc => Ok doc
  | None => Raise (IndexError idx)
  end.

(** The loop of [search] over [zip(indices[0], distances[0])]. *)
Fixpoint collect (docs : list Document) (hits : list faiss.hit)
    : result (list (Document * Q)) :=
  match hits with
  | [] => Ok []
  | (idx, dist) :: hits' =>
      if bool_decide (idx < length docs)%nat then
        let! doc := getitem docs idx in
        let! results := collect docs hits' in
        Ok ((doc, dist) :: results)
      else collect docs hits'
  end.

(** The table of [_initialize_medical_knowledge]. *)
Definition knowledge (text category urgency : string) : Metadata :=
  <["text" := text]> (<["category" := category]> (<["urgency" := urgency]> ∅)).

Definition medical_knowledge : list Metadata := [
  knowledge "Fever above 103°F (39.4°C) in adults or 100.4°F in infants under 3 months requires immediate medical attention"
    "fever" "HIGH";
  knowledge "Chest pain with shortness of breath, sweating, or pain radiating to arm/jaw may indicate heart attack - seek emergency care"
    "cardiac" "CRITICAL";
  knowledge "Severe headache with confusion, vision changes, or difficulty speaking may indicate stroke - call emergency services"
    "neurological" "CRITICAL";
  knowledge "Difficulty breathing, wheezing, or inability to speak in full sentences requires urgent evaluation"
    "respiratory" "HIGH";
  knowledge "Severe abdominal pain with fever, vomiting, or inability to pass gas may indicate serious condition"
    "gastrointestinal" "HIGH";
  knowledge "Common cold symptoms: runny nose, sore throat, mild cough - usually self-limiting, rest and fluids recommended"
    "respiratory" "LOW";
  knowledge "Mild headache without other symptoms can be treated with over-the-counter pain relievers and rest"
    "pain" "MINIMAL";
  knowledge "Allergic reaction with swelling of face, tongue, or difficulty breathing is life-threatening - use EpiPen if available and call 911"
    "allergic" "CRITICAL";
  knowledge "Dehydration symptoms: extreme thirst, dark urine, dizziness - increase fluid intake, seek care if severe"
    "general" "MODERATE";
  knowledge "Persistent vomiting or diarrhea for more than 24 hours, especially with blood, requires medical evaluation"
    "gastrointestinal" "MODERATE"
].

Section Service.

(** [self.model.encode([text])[0]] *)
Variable encode : string → Embedding.

Definition add_document (self : VectorDBService) (text : string)
    (metadata : option Metadata) : VectorDBService :=
  let embedding := encode text in
  mkService (faiss.add (index self) embedding)
            (documents self ++ [mkDocument text (or_empty metadata)]).

Definition search (self : VectorDBService) (query : string) (k : Z)
    : result (list (Document * Q)) :=
  if bool_decide (faiss.ntotal (index self) = 0) then Ok []
  else
    let query_embedding := encode query in
    let! hits := faiss.search (index self) query_embedding
                   (Z.min k (faiss.ntotal (index self))) in
    collect (documents self) hits.

Definition get_relevant_knowledge (self : VectorDBService) (symptoms : string) (k : Z)
    : result (list Document) :=
  let! results := search self symptoms k in
  Ok (map (fun '(doc, score) => doc) results).

Definition save (fault : option save_fault) (self : VectorDBService) : IO unit :=
  try_except
    (do _ <- write_index fault (index self);
     do _ <- open_wb fault;
     pickle_dump fault (documents self))
    (fun e => ret ()).

Definition load : IO VectorDBService :=
  try_except
    (do ix <- read_index;
     do docs <- pickle_load;
     ret (mkService ix docs))
    (fun e => ret (mkService (faiss.new dimension) [])).

(** The loop [for doc in medical_knowledge: self.add_document(doc["text"], doc)]. *)
Definition add_all (self : VectorDBService) (docs : list Metadata) : VectorDBService :=
  foldl (fun self doc => add_document self (doc !!! "text") (Some doc)) self docs.

Definition _initialize_medical_knowledge (fault : option save_fault)
    (self : VectorDBService) : IO VectorDBService :=
  let self := add_all self medical_knowledge in
  do _ <- save fault self;
  ret self.

Definition __init__ (fault : option save_fault) : IO VectorDBService :=
  fun disk =>
    if file_exists (index_file disk) then load disk
    else _initialize_medical_knowledge fault (mkService (faiss.new dimension) []) disk.

(** ** Histories of a service *)

Definition World : Type := VectorDBService * Disk.

(** One completed public operation.  [tolerated] says which
    interruptions of [save] the history may contain. *)
Inductive step (tolerated : option save_fault → Prop) : World → World → Prop :=
  | step_add_document self disk text metadata :
      step tolerated (self, disk) (add_document self text metadata, disk)
  | step_save self disk fault disk' :
      tolerated fault →
      save fault self disk = (Ok (), disk') →
      step tolerated (self, disk) (self, disk')
  | step_load self disk self' disk' :
      load disk = (Ok self', disk') →
      step tolerated (self, disk) (self', disk')
  | step_construct self disk fault self' disk' :
      tolerated fault →
      __init__ fault disk = (Ok self', disk') →
      step tolerated (self, disk) (self', disk').

(** The states a service goes through when it is first constructed
    on the directory [disk0]. *)
Inductive reachable (tolerated : option save_fault → Prop) (disk0 : Disk) : World → Prop :=
  | reachable_construct fault self disk :
      tolerated fault →
      __init__ fault disk0 = (Ok self, disk) →
      reachable tolerated disk0 (self, disk)
  | reachable_step w w' :
      reachable tolerated disk0 w →
      step tolerated w w' →
      reachable tolerated disk0 w'.

End Service.

(** ** Vocabulary of the statements *)

(** The document a hit stands for, with the hit's distance, when the
    position is assigned. *)
Definition resolve (docs : list Document) (h : faiss.hit) : option (Document * Q) :=
  (fun doc => (doc, snd h)) <$> docs !! fst h.

(** The documents the starter table gives rise to. *)
Definition starter_documents : list Document :=
  map (fun doc : Metadata => mkDocument (doc !!! "text") doc) medical_knowledge.

Definition starter_texts : list string :=
  map (fun doc : Metadata => doc !!! "text") medical_knowledge.

(** A document of the starter set carries its category and its urgency. *)
Definition tagged (doc : Document) : Prop :=
  is_Some (metadata doc !! "category") ∧ is_Some (metadata doc !! "urgency").

(** What [save] leaves in the directory. *)
Definition saved (fault : option save_fault) (self : VectorDBService) (disk : Disk) : Disk :=
  match fault with
  | None => mkDisk (Holds (index self)) (Holds (documents self))
  | Some index_open_fails => disk
  | Some index_write_fails => mkDisk Garbled (data_file disk)
  | Some data_open_fails => mkDisk (Holds (index self)) (data_file disk)
  | Some data_dump_fails => mkDisk (Holds (index self)) Garbled
  end.

(** Both artifacts are there and deserialize. *)
Definition loadable (disk : Disk) : bool :=
  match index_file disk, data_file disk with
  | Holds _, Holds _ => true
  | _, _ => false
  end.

(** Every interruption of [save] but one: the index file written and
    the data file not even opened. *)
Definition not_between_files (fault : option save_fault) : Prop :=
  fault ≠ Some data_open_fails.

(** Each stored embedding is the embedding of the text of the document
    at the same position. *)
Definition aligned (encode : string → Embedding) (self : VectorDBService) : Prop :=
  faiss.xb (index self) = map (fun doc => encode (text doc)) (documents self).

(** Whatever both files hold is aligned. *)
Definition aligned_disk (encode : string → Embedding) (disk : Disk) : Prop :=
  ∀ ix docs, index_file disk = Holds ix → data_file disk = Holds docs →
    faiss.xb ix = map (fun doc => encode (text doc)) docs.

(** ** Sample data *)

(** A one-dimensional embedding: the length of the text. *)
Definition by_length (text : string) : Embedding :=
  [inject_Z (Z.of_nat (String.length text))].

Definition doc_a : Document := mkDocument "a" ∅.
Definition doc_bb : Document := mkDocument "bb" ∅.

Definition one_document : VectorDBService :=
  mkService (faiss.mkIndex 1 [by_length "a"]) [doc_a].

Definition two_documents : VectorDBService :=
  mkService (faiss.mkIndex 1 [by_length "a"; by_length "bb"]) [doc_a; doc_bb].

(** Two embeddings, one document. *)
Definition lopsided : VectorDBService :=
  mkService (faiss.mkIndex 1 [by_length "a"; by_length "bb"]) [doc_a].

(** The service a first construction leaves, under [by_length]. *)
Definition seeded_service : VectorDBService :=
  add_all by_length fresh medical_knowledge.

Definition seeded_disk : Disk :=
  mkDisk (Holds (index seeded_service)) (Holds (documents seeded_service)).

(** One more document. *)
Definition grown_service : VectorDBService :=
  add_document by_length seeded_service "sprained ankle after fall" None.

(** The new index file beside the old data file. *)
Definition stale_disk : Disk :=
  mkDisk (Holds (index grown_service)) (Holds (documents seeded_service)).

Definition stale_service : VectorDBService :=
  mkService (index grown_service) (documents seeded_service).

(** An index file that does not deserialize. *)
Definition damaged_disk : Disk := mkDisk Garbled (Holds [doc_a]).

(** * Properties *)

(** ** Flat index: the scan and the ranking *)

Module faiss_facts.
Import faiss.

Lemma length_scan q pos xs : length (scan q pos xs) = length xs.
Proof. revert pos. induction xs as [|x xs IH]; intros pos; simpl; [done|]. by rewrite IH. Qed.

(** Every hit of a scan names a stored embedding, at or after the
    first position, with its distance to the query. *)
Lemma scan_hits q pos xs :
  Forall (fun h : hit => (pos ≤ fst h)%nat ∧
            ∃ x, xs !! (fst h - pos)%nat = Some x ∧ snd h = fvec_L2sqr q x)
         (scan q pos xs).
Proof.
  revert pos. induction xs as [|x xs IH]; intros pos; simpl; constructor.
  - simpl. split; [lia|]. exists x. by rewrite Nat.sub_diag.
  - eapply Forall_impl; [apply (IH (S pos))|].
    intros [i dist] [Hle (y & Hy & Hd)]; simpl in *.
    split; [lia|]. exists y. split; [|done].
    replace (i - pos)%nat with (S (i - S pos)) by lia. done.
Qed.

Lemma place_perm h l : place h l ≡ₚ h :: l.
Proof.
  induction l as [|h' l IH]; simpl; [done|].
  destruct (Qle_bool (snd h) (snd h')); [done|].
  rewrite IH. apply Permutation_swap.
Qed.

Lemma rank_perm l : rank l ≡ₚ l.
Proof.
  induction l as [|h l IH]; simpl; [done|].
  rewrite place_perm. by rewrite IH.
Qed.

Lemma length_rank l : length (rank l) = length l.
Proof. by rewrite rank_perm. Qed.

(** A hit inserted earlier than every hit of a ranked list finds its
    place in the ranking. *)
Lemma place_sorted h l :
  StronglySorted hit_lt l →
  Forall (fun h' : hit => (fst h < fst h')%nat) l →
  StronglySorted hit_lt (place h l).
Proof.
  induction l as [|h' l IH]; intros Hs Hpos; simpl.
  - repeat constructor.
  - apply StronglySorted_cons in Hs as [Hh' Hs].
    apply Forall_cons in Hpos as [Hlt Hpos].
    destruct (Qle_bool (snd h) (snd h')) eqn:Hle.
    + apply Qle_bool_iff in Hle.
      apply StronglySorted_cons. split.
      * constructor.
        { unfold hit_lt. destruct (Qlt_le_dec (snd h) (snd h')) as [?|Hge]; [by left|].
          right. split; [lra|done]. }
        rewrite Forall_forall in Hh', Hpos |- *.
        intros x Hx. specialize (Hh' x Hx). specialize (Hpos x Hx).
        unfold hit_lt in *.
        destruct (Qlt_le_dec (snd h) (snd x)) as [?|Hge]; [by left|].
        right. split; [|done]. destruct Hh' as [?|[? _]]; lra.
      * apply StronglySorted_cons. done.
    + assert (snd h' < snd h)%Q as Hgt.
      { apply Qnot_le_lt. intros Hc. apply Qle_bool_iff in Hc. congruence. }
      apply StronglySorted_cons. split; [|by apply IH].
      rewrite place_perm. constructor; [by left|done].
Qed.

Lemma rank_scan_sorted q pos xs : StronglySorted hit_lt (rank (scan q pos xs)).
Proof.
  revert pos. induction xs as [|x xs IH]; intros pos; simpl.
  - constructor.
  - apply place_sorted; [apply IH|].
    rewrite rank_perm.
    eapply Forall_impl; [apply (scan_hits q (S pos) xs)|].
    intros h [Hle _]; simpl. lia.
Qed.

Lemma take_sorted (n : nat) (l : list hit) :
  StronglySorted hit_lt l → StronglySorted hit_lt (take n l).
Proof.
  intros Hs. rewrite <- (take_drop n l) in Hs.
  by apply StronglySorted_app_1_l in Hs.
Qed.

Lemma nearest_sorted ix q k : StronglySorted hit_lt (nearest ix q k).
Proof. apply take_sorted, rank_scan_sorted. Qed.

Lemma length_nearest ix q k :
  length (nearest ix q k) = Nat.min (Z.to_nat k) (length (xb ix)).
Proof. unfold nearest. by rewrite length_take, length_rank, length_scan. Qed.

(** Every reported hit is a stored position with its distance. *)
Lemma nearest_hits ix q k :
  Forall (fun h : hit => ∃ x, xb ix !! fst h = Some x ∧ snd h = fvec_L2sqr q x)
         (nearest ix q k).
Proof.
  unfold nearest. apply Forall_take. rewrite rank_perm.
  eapply Forall_impl; [apply (scan_hits q 0 (xb ix))|].
  intros h [_ (x & Hx & Hd)]. exists x. by rewrite Nat.sub_0_r in Hx.
Qed.

Lemma scan_positions q pos xs : map fst (scan q pos xs) = seq pos (length xs).
Proof. revert pos. induction xs as [|x xs IH]; intros pos; simpl; [done|]. by rewrite IH. Qed.

(** The reported hits are the head of a ranking of all the stored
    positions. *)
Lemma ranking_stored q xs :
  Forall (fun h : hit => ∃ x, xs !! fst h = Some x ∧ snd h = fvec_L2sqr q x)
         (rank (scan q 0 xs)).
Proof.
  rewrite rank_perm.
  eapply Forall_impl; [apply (scan_hits q 0 xs)|].
  intros h [_ (x & Hx & Hd)]. exists x. by rewrite Nat.sub_0_r in Hx.
Qed.

Lemma nearest_heads_ranking ix q k :
  ∃ rest,
    StronglySorted hit_lt (nearest ix q k ++ rest) ∧
    map fst (nearest ix q k ++ rest) ≡ₚ seq 0 (length (xb ix)) ∧
    Forall (fun h : hit => ∃ x, xb ix !! fst h = Some x ∧ snd h = fvec_L2sqr q x) rest.
Proof.
  exists (drop (Z.to_nat k) (rank (scan q 0 (xb ix)))).
  unfold nearest. rewrite take_drop. split; [apply rank_scan_sorted|].
  split; [by rewrite rank_perm, scan_positions|].
  apply Forall_drop, ranking_stored.
Qed.

Lemma scan_holds q pos xs i x :
  xs !! i = Some x → (pos + i, fvec_L2sqr q x)%nat ∈ scan q pos xs.
Proof.
  revert pos i. induction xs as [|y xs IH]; intros pos [|i] Hx; simplify_eq/=.
  - rewrite Nat.add_0_r. left.
  - right. replace (pos + S i)%nat with (S pos + i)%nat by lia. by apply IH.
Qed.

(** A stored embedding that is not reported ranks after every
    reported one. *)
Lemma nearest_beats_the_rest ix q k (h : hit) (j : nat) (y : Embedding) :
  h ∈ nearest ix q k →
  xb ix !! j = Some y →
  j ∉ map fst (nearest ix q k) →
  hit_lt h (j, fvec_L2sqr q y).
Proof.
  intros Hh Hy Hj. unfold nearest in *.
  pose proof (rank_scan_sorted q 0 (xb ix)) as Hs.
  pose proof (scan_holds q 0 (xb ix) j y Hy) as Hin.
  rewrite <- rank_perm in Hin. simpl in Hin.
  rewrite <- (take_drop (Z.to_nat k) (rank (scan q 0 (xb ix)))) in Hs, Hin.
  apply elem_of_app in Hin as [Hin|Hin].
  - destruct Hj. apply list_elem_of_In, in_map_iff. exists (j, fvec_L2sqr q y).
    split; [done|]. by apply list_elem_of_In.
  - by eapply StronglySorted_app_1_elem_of.
Qed.

Lemma nearest_nonpositive ix q k : k ≤ 0 → nearest ix q k = [].
Proof.
  intros Hk. unfold nearest. replace (Z.to_nat k) with 0%nat by lia. done.
Qed.

End faiss_facts.

(** ** The service *)

Section ServiceFacts.

Variable encode : string → Embedding.

(** *** Resolving hits *)

Lemma collect_resolves docs hits :
  collect docs hits = Ok (omap (resolve docs) hits).
Proof.
  induction hits as [|[idx dist] hits IH]; simpl; [done|].
  unfold resolve at 1; simpl. case_bool_decide as Hlt.
  - apply lookup_lt_is_Some_2 in Hlt as [doc Hdoc].
    unfold getitem. rewrite Hdoc, IH. done.
  - rewrite lookup_ge_None_2 by lia. done.
Qed.

Lemma search_resolves self query k :
  0 < k ∨ faiss.ntotal (index self) = 0 →
  search encode self query k =
    Ok (omap (resolve (documents self))
             (faiss.nearest (index self) (encode query)
                (Z.min k (faiss.ntotal (index self))))).
Proof.
  intros Hk. unfold search. case_bool_decide as Hn.
  - unfold faiss.nearest, faiss.ntotal in *.
    destruct (faiss.xb (index self)); [|simpl in Hn; lia].
    simpl. by rewrite take_nil.
  - unfold faiss.search.
    rewrite bool_decide_eq_true_2 by (unfold faiss.ntotal in *; lia).
    apply collect_resolves.
Qed.

(** The index refuses a [k] that is not positive, and [search] lets
    the error through. *)
Lemma search_rejects self query k :
  ¬ (0 < k ∨ faiss.ntotal (index self) = 0) →
  search encode self query k = Raise AssertionError.
Proof.
  intros Hk. unfold search. rewrite bool_decide_eq_false_2 by tauto.
  unfold faiss.search. rewrite bool_decide_eq_false_2 by lia. done.
Qed.

Lemma resolve_all docs (hits : list faiss.hit) :
  Forall (fun h => is_Some (docs !! fst h)) hits →
  Forall2 (fun h r => docs !! fst h = Some (fst r) ∧ snd r = snd h)
          hits (omap (resolve docs) hits).
Proof.
  induction 1 as [|h hits [doc Hdoc] _ IH]; simpl; [constructor|].
  unfold resolve at 1. rewrite Hdoc. simpl. constructor; [done|apply IH].
Qed.

(** *** Searching *)

(** C2.  On a corpus (as many documents as embeddings) and for
    [k > 0], [search] returns [min(k, total_count)] results; they
    stand, in order, for hits that ascend by squared Euclidean
    distance between the query embedding and the stored embedding,
    equal distances by ascending insertion position.  These hits are
    the nearest: every stored embedding that is not reported is
    farther from the query than each reported one, or as far and
    inserted later; together with the hits left out they rank all the
    stored positions. *)
Theorem search_nearest_first self query k :
  consistent self →
  0 < k →
  ∃ hits results,
    search encode self query k = Ok results ∧
    Z.of_nat (length results) = Z.min k (faiss.ntotal (index self)) ∧
    StronglySorted hit_lt hits ∧
    (∀ (h : faiss.hit) (j : nat) (y : Embedding),
       h ∈ hits →
       faiss.xb (index self) !! j = Some y →
       j ∉ map fst hits →
       hit_lt h (j, faiss.fvec_L2sqr (encode query) y)) ∧
    (∃ rest, StronglySorted hit_lt (hits ++ rest) ∧
             map fst (hits ++ rest) ≡ₚ seq 0 (length (faiss.xb (index self))) ∧
             Forall (fun h : faiss.hit =>
                       ∃ x, faiss.xb (index self) !! fst h = Some x ∧
                            snd h = faiss.fvec_L2sqr (encode query) x) rest) ∧
    Forall2 (fun (h : faiss.hit) (r : Document * Q) =>
               documents self !! fst h = Some (fst r) ∧
               snd r = snd h ∧
               ∃ x, faiss.xb (index self) !! fst h = Some x ∧
                    snd h = faiss.fvec_L2sqr (encode query) x)
            hits results.
Proof.
  intros Hc Hk.
  set (hits := faiss.nearest (index self) (encode query)
                 (Z.min k (faiss.ntotal (index self)))).
  exists hits, (omap (resolve (documents self)) hits).
  pose proof (faiss_facts.nearest_hits (index self) (encode query)
                (Z.min k (faiss.ntotal (index self)))) as Hhits.
  fold hits in Hhits.
  assert (Forall (fun h : faiss.hit => is_Some (documents self !! fst h)) hits) as Hin.
  { eapply Forall_impl; [exact Hhits|]. intros h (x & Hx & _).
    apply lookup_lt_is_Some_2. apply lookup_lt_Some in Hx.
    unfold consistent, faiss.ntotal in Hc. lia. }
  pose proof (resolve_all _ _ Hin) as Hall.
  split; [apply search_resolves; by left|]. split; [|split; [|split; [|split]]].
  - rewrite <- (Forall2_length _ _ _ Hall). subst hits.
    rewrite faiss_facts.length_nearest. unfold faiss.ntotal. lia.
  - apply faiss_facts.nearest_sorted.
  - apply faiss_facts.nearest_beats_the_rest.
  - apply faiss_facts.nearest_heads_ranking.
  - clear Hin. induction Hall as [|h r hs rs [Hd Hs] _ IH]; [constructor|].
    apply Forall_cons in Hhits as [Hh Hhits].
    constructor; [done|by apply IH].
Qed.

(** C3, amended.  On an index without embeddings, [search] returns the
    empty list and raises nothing, whatever [k] is. *)
Theorem search_nothing self query k :
  faiss.ntotal (index self) = 0 →
  search encode self query k = Ok [].
Proof.
  intros Hn. unfold search. by rewrite bool_decide_eq_true_2.
Qed.

(** C7, amended.  [search] raises no index error.  When the index
    answers, a reported position without a document is left out and
    the others are resolved in the order the index reports them; the
    index does not answer a [k] that is not positive on embeddings it
    holds, and that is the only error. *)
Theorem search_skips_unassigned self query k :
  if bool_decide (0 < k ∨ faiss.ntotal (index self) = 0) then
    search encode self query k =
      Ok (omap (resolve (documents self))
               (faiss.nearest (index self) (encode query)
                  (Z.min k (faiss.ntotal (index self)))))
  else search encode self query k = Raise AssertionError.
Proof.
  case_bool_decide as Hk; [by apply search_resolves|by apply search_rejects].
Qed.

(** C8.  [get_relevant_knowledge] returns the documents of the
    results of [search], in their order, without the distances; where
    [search] raises, it raises the same. *)
Theorem get_relevant_knowledge_drops_distances self symptoms k :
  if bool_decide (0 < k ∨ faiss.ntotal (index self) = 0) then
    ∃ results,
      search encode self symptoms k = Ok results ∧
      get_relevant_knowledge encode self symptoms k = Ok (map fst results)
  else
    search encode self symptoms k = Raise AssertionError ∧
    get_relevant_knowledge encode self symptoms k = Raise AssertionError.
Proof.
  unfold get_relevant_knowledge. case_bool_decide as Hk.
  - eexists. split; [by apply search_resolves|]. by rewrite search_resolves.
  - by rewrite search_rejects.
Qed.

End ServiceFacts.

(** ** Persistence *)

Lemma save_saved fault self disk :
  save fault self disk = (Ok (), saved fault self disk).
Proof. destruct disk. by destruct fault as [[]|]. Qed.

Lemma load_loaded disk :
  load disk =
    (Ok (match index_file disk, data_file disk with
         | Holds ix, Holds docs => mkService ix docs
         | _, _ => fresh
         end), disk).
Proof.
  unfold load, try_except, bind, read_index, pickle_load.
  destruct (index_file disk); [done..|]. by destruct (data_file disk).
Qed.

Lemma load_fallback disk : loadable disk = false → load disk = (Ok fresh, disk).
Proof.
  intros Hl. rewrite load_loaded. unfold loadable in Hl.
  destruct (index_file disk); [done..|]. by destruct (data_file disk).
Qed.

Lemma saved_coherent fault self disk :
  not_between_files fault → consistent self → coherent disk →
  coherent (saved fault self disk).
Proof.
  intros Hf Hs Hd ix docs. unfold not_between_files in Hf.
  destruct fault as [[]|]; simpl; try congruence. apply Hd.
Qed.

Lemma loaded_consistent disk self disk' :
  coherent disk → load disk = (Ok self, disk') → consistent self ∧ disk' = disk.
Proof.
  intros Hd. rewrite load_loaded. intros [= <- <-]. split; [|done].
  destruct (index_file disk) as [| |ix] eqn:Hi; [done..|].
  destruct (data_file disk) as [| |docs] eqn:Hdocs; [done..|].
  by apply Hd.
Qed.

(** C4.  A [save] that goes through, followed by [load], gives back the
    service as it was: the same documents and the same embeddings at
    the same positions, hence the same answer to every search. *)
Theorem save_load_round_trip (encode : string → Embedding) self disk query k :
  ∃ disk' self',
    save None self disk = (Ok (), disk') ∧
    load disk' = (Ok self', disk') ∧
    documents self' = documents self ∧
    faiss.xb (index self') = faiss.xb (index self) ∧
    self' = self ∧
    search encode self' query k = search encode self query k.
Proof.
  exists (saved None self disk), self.
  split; [apply save_saved|]. split; [|done].
  rewrite load_loaded. by destruct self.
Qed.

(** C5, amended.  [save] never raises and writes in place, the index
    file first and the data file second; a failure is swallowed where
    it happens, so each file is left as [saved] tells: the new content
    when its write went through, unreadable when its write broke off,
    and the previous content only when its write had not begun. *)
Theorem save_writes_in_place fault self disk :
  save fault self disk = (Ok (), saved fault self disk).
Proof. apply save_saved. Qed.

(** ** Adding documents and the starter set *)

Section Seeding.

Variable encode : string → Embedding.

Lemma add_document_consistent self text metadata :
  consistent self → consistent (add_document encode self text metadata).
Proof.
  unfold consistent, faiss.ntotal. simpl. rewrite !length_app. simpl. lia.
Qed.

Lemma add_all_appends self docs :
  add_all encode self docs =
    mkService
      (faiss.mkIndex (faiss.d (index self))
         (faiss.xb (index self) ++ map (fun doc : Metadata => encode (doc !!! "text")) docs))
      (documents self ++
         map (fun doc : Metadata => mkDocument (doc !!! "text") (or_empty (Some doc))) docs).
Proof.
  unfold add_all. revert self.
  induction docs as [|doc docs IH]; intros self; simpl.
  - rewrite !app_nil_r. by destruct self as [[]].
  - rewrite IH. simpl. by rewrite <- !app_assoc.
Qed.

Lemma add_all_consistent self docs :
  consistent self → consistent (add_all encode self docs).
Proof.
  rewrite add_all_appends. unfold consistent, faiss.ntotal. simpl.
  rewrite !length_app, !length_map. lia.
Qed.

Lemma medical_knowledge_kept :
  map (fun doc : Metadata => mkDocument (doc !!! "text") (or_empty (Some doc)))
      medical_knowledge = starter_documents.
Proof. reflexivity. Qed.

(** What [_initialize_medical_knowledge] does to a service without
    documents. *)
Lemma seeded fault disk :
  ∃ self',
    _initialize_medical_knowledge encode fault fresh disk =
      (Ok self', saved fault self' disk) ∧
    documents self' = starter_documents ∧
    faiss.xb (index self') = map encode starter_texts.
Proof.
  exists (add_all encode fresh medical_knowledge). split.
  - unfold _initialize_medical_knowledge, bind. by rewrite save_saved.
  - rewrite add_all_appends. unfold fresh.
    cbn [documents index faiss.xb faiss.new app].
    split; [apply medical_knowledge_kept|].
    unfold starter_texts. by rewrite map_map.
Qed.

End Seeding.

(** C10.  Without metadata, [add_document] stores the text with an
    empty mapping. *)
Theorem add_document_without_metadata (encode : string → Embedding) self text :
  add_document encode self text None =
    mkService (faiss.add (index self) (encode text))
              (documents self ++ [mkDocument text ∅]) ∧
  last (documents (add_document encode self text None)) = Some (mkDocument text ∅).
Proof.
  split; [done|]. unfold add_document. simpl. by rewrite last_snoc.
Qed.

(** C9.  The constructor seeds only a service it has just created
    empty, which it does when there is no index file to load.  Seeding
    adds the ten documents of the table in their order, at positions 0
    to 9, each with its category and urgency, and then saves. *)
Theorem seeding_starter_set (encode : string → Embedding) fault disk :
  __init__ encode fault disk =
    (if file_exists (index_file disk) then load disk
     else _initialize_medical_knowledge encode fault fresh disk) ∧
  documents fresh = [] ∧
  ∃ self',
    _initialize_medical_knowledge encode fault fresh disk = (Ok self', saved fault self' disk) ∧
    save fault self' disk = (Ok (), saved fault self' disk) ∧
    length (documents self') = 10%nat ∧
    faiss.ntotal (index self') = 10 ∧
    Forall tagged (documents self') ∧
    ∀ (i : nat) (doc : Metadata),
      medical_knowledge !! i = Some doc →
      documents self' !! i = Some (mkDocument (doc !!! "text") doc) ∧
      faiss.xb (index self') !! i = Some (encode (doc !!! "text")).
Proof.
  split; [done|]. split; [done|].
  destruct (seeded encode fault disk) as (self' & Hrun & Hdocs & Hxb).
  exists self'. split; [done|]. split; [apply save_saved|].
  rewrite Hdocs. unfold faiss.ntotal. rewrite Hxb.
  split; [done|]. split; [done|]. split.
  - unfold starter_documents. apply Forall_map, Forall_forall.
    intros doc Hdoc. unfold medical_knowledge in Hdoc.
    repeat (apply elem_of_cons in Hdoc as [->|Hdoc]; [by split; eexists|]).
    by apply elem_of_nil in Hdoc.
  - intros i doc Hi. unfold starter_documents, starter_texts.
    rewrite list_lookup_fmap, !list_lookup_fmap, Hi. done.
Qed.

(** C6.  When an artifact is missing or does not deserialize, [load]
    raises nothing and leaves the service without embeddings and
    without documents; seeding it then gives exactly the starter set. *)
Theorem load_falls_back_to_empty (encode : string → Embedding) fault disk :
  loadable disk = false →
  load disk = (Ok fresh, disk) ∧
  faiss.ntotal (index fresh) = 0 ∧
  documents fresh = [] ∧
  ∃ self' disk',
    _initialize_medical_knowledge encode fault fresh disk = (Ok self', disk') ∧
    documents self' = starter_documents ∧
    faiss.xb (index self') = map encode starter_texts.
Proof.
  intros Hl. split; [by apply load_fallback|]. split; [done|]. split; [done|].
  destruct (seeded encode fault disk) as (self' & Hrun & Hdocs & Hxb).
  by exists self', (saved fault self' disk).
Qed.

(** ** The two collections along a history *)

Section Histories.

Variable encode : string → Embedding.

Lemma constructed_invariant fault disk self disk' :
  not_between_files fault → coherent disk →
  __init__ encode fault disk = (Ok self, disk') →
  consistent self ∧ coherent disk'.
Proof.
  intros Hf Hd. unfold __init__. destruct (file_exists (index_file disk)).
  - intros Hload. apply loaded_consistent in Hload as [? ->]; done.
  - unfold _initialize_medical_knowledge, bind. rewrite save_saved.
    intros [= <- <-].
    assert (consistent (add_all encode (mkService (faiss.new dimension) []) medical_knowledge))
      as Hc by by apply add_all_consistent.
    split; [done|]. by apply saved_coherent.
Qed.

Lemma step_invariant w w' :
  step encode not_between_files w w' →
  consistent (fst w) ∧ coherent (snd w) →
  consistent (fst w') ∧ coherent (snd w').
Proof.
  intros Hstep [Hc Hd].
  destruct Hstep as [self disk text metadata|self disk fault disk' Hf Hsave
                    |self disk self' disk' Hload|self disk fault self' disk' Hf Hinit];
    simpl in *.
  - split; [by apply add_document_consistent|done].
  - rewrite save_saved in Hsave. injection Hsave as <-.
    split; [done|]. by apply saved_coherent.
  - apply loaded_consistent in Hload as [? ->]; done.
  - by eapply constructed_invariant.
Qed.

Lemma reachable_invariant disk0 w :
  coherent disk0 →
  reachable encode not_between_files disk0 w →
  consistent (fst w) ∧ coherent (snd w).
Proof.
  intros Hd0. induction 1 as [fault self disk Hf Hinit|w w' _ IH Hstep].
  - by eapply constructed_invariant.
  - by eapply step_invariant.
Qed.

(** C1, amended.  Starting on a directory whose two files agree (or
    are not both readable), after every completed operation of a
    history (construction with its seeding, [add_document], [save],
    [load]) in which no [save] breaks off between its two files, the
    index holds as many embeddings as there are documents. *)
Theorem counts_agree disk0 w :
  coherent disk0 →
  reachable encode not_between_files disk0 w →
  faiss.ntotal (index (fst w)) = Z.of_nat (length (documents (fst w))).
Proof. intros Hd0 Hr. by destruct (reachable_invariant disk0 w Hd0 Hr). Qed.

End Histories.

(** * Instances *)

(** C1: a history that ends with eleven embeddings and ten documents.
    The service is constructed on an empty directory (seeded and
    saved), a document is added, [save] writes the index file and then
    cannot open the data file, and [load] reads the two files back. *)
Lemma counts_disagree_after_interrupted_save :
  reachable by_length (fun _ => True) no_artifacts (stale_service, stale_disk) ∧
  faiss.ntotal (index stale_service) = 11 ∧
  length (documents stale_service) = 10%nat ∧
  ¬ consistent stale_service.
Proof.
  split; [|by vm_compute].
  apply (reachable_step _ _ _ (grown_service, stale_disk)).
  - apply (reachable_step _ _ _ (grown_service, seeded_disk)).
    + apply (reachable_step _ _ _ (seeded_service, seeded_disk)).
      * by apply (reachable_construct _ _ _ None).
      * apply step_add_document.
    + by apply (step_save _ _ _ _ (Some data_open_fails)).
  - by apply step_load.
Qed.

Lemma counts_agree_witness :
  coherent no_artifacts ∧
  reachable by_length not_between_files no_artifacts (grown_service, seeded_disk) ∧
  faiss.ntotal (index (fst (grown_service, seeded_disk))) =
    Z.of_nat (length (documents (fst (grown_service, seeded_disk)))).
Proof.
  assert (coherent no_artifacts) as Hd by (intros ix docs Hix; discriminate Hix).
  assert (reachable by_length not_between_files no_artifacts (grown_service, seeded_disk)) as Hr.
  { apply (reachable_step _ _ _ (seeded_service, seeded_disk)).
    - apply (reachable_construct _ _ _ None); [discriminate|reflexivity].
    - apply step_add_document. }
  split; [exact Hd|]. split; [exact Hr|].
  exact (counts_agree by_length no_artifacts (grown_service, seeded_disk) Hd Hr).
Defined.

Lemma search_nearest_first_witness :
  consistent two_documents ∧ 0 < 1 ∧
  ∃ hits results,
    search by_length two_documents "bb" 1 = Ok results ∧
    Z.of_nat (length results) = Z.min 1 (faiss.ntotal (index two_documents)) ∧
    StronglySorted hit_lt hits ∧
    (∀ (h : faiss.hit) (j : nat) (y : Embedding),
       h ∈ hits →
       faiss.xb (index two_documents) !! j = Some y →
       j ∉ map fst hits →
       hit_lt h (j, faiss.fvec_L2sqr (by_length "bb") y)) ∧
    (∃ rest, StronglySorted hit_lt (hits ++ rest) ∧
             map fst (hits ++ rest) ≡ₚ seq 0 (length (faiss.xb (index two_documents))) ∧
             Forall (fun h : faiss.hit =>
                       ∃ x, faiss.xb (index two_documents) !! fst h = Some x ∧
                            snd h = faiss.fvec_L2sqr (by_length "bb") x) rest) ∧
    Forall2 (fun (h : faiss.hit) (r : Document * Q) =>
               documents two_documents !! fst h = Some (fst r) ∧
               snd r = snd h ∧
               ∃ x, faiss.xb (index two_documents) !! fst h = Some x ∧
                    snd h = faiss.fvec_L2sqr (by_length "bb") x)
            hits results.
Proof.
  split; [reflexivity|]. split; [lia|].
  apply (search_nearest_first by_length two_documents "bb" 1); [reflexivity|lia].
Defined.

Lemma search_nothing_witness :
  faiss.ntotal (index fresh) = 0 ∧
  search by_length fresh "a" 0 = Ok [].
Proof.
  split; [reflexivity|].
  apply (search_nothing by_length fresh "a" 0). reflexivity.
Defined.

(** C3: two documents are stored and [k] is not positive.  The index
    is asked for [min(k, 2) = k] neighbours and refuses; [search] does
    not return the empty list. *)
Lemma search_nonpositive_k_raises :
  consistent two_documents ∧
  search by_length two_documents "a" 0 = Raise AssertionError ∧
  search by_length two_documents "a" (-3) = Raise AssertionError ∧
  search by_length two_documents "a" 0 ≠ Ok [].
Proof. by vm_compute. Qed.

(** C5: [save] breaks off after the index file.  The directory held
    one document; it now holds the index of two embeddings beside the
    data of one document, both readable, and [load] accepts them.  When
    it is [pickle.dump] that fails, the data file is lost. *)
Lemma save_interrupted_leaves_mismatch :
  let disk := mkDisk (Holds (index one_document)) (Holds (documents one_document)) in
  ∃ disk',
    save (Some data_open_fails) two_documents disk = (Ok (), disk') ∧
    disk' ≠ disk ∧
    load disk' = (Ok lopsided, disk') ∧
    ¬ consistent lopsided ∧
    save (Some data_dump_fails) two_documents disk =
      (Ok (), mkDisk (Holds (index two_documents)) Garbled).
Proof.
  eexists. split; [reflexivity|]. split; [discriminate|].
  split; [reflexivity|]. split; [|reflexivity].
  by vm_compute.
Qed.

Lemma load_falls_back_to_empty_witness :
  loadable damaged_disk = false ∧
  load damaged_disk = (Ok fresh, damaged_disk) ∧
  faiss.ntotal (index fresh) = 0 ∧
  documents fresh = [] ∧
  ∃ self' disk',
    _initialize_medical_knowledge by_length None fresh damaged_disk = (Ok self', disk') ∧
    documents self' = starter_documents ∧
    faiss.xb (index self') = map by_length starter_texts.
Proof.
  split; [reflexivity|].
  apply (load_falls_back_to_empty by_length None damaged_disk). reflexivity.
Defined.

(** C7: the index reports positions 1 and 0, position 1 has no
    document, and [search] returns the document of position 0 alone
    instead of raising. *)
Lemma search_leaves_out_position_1 :
  faiss.search (index lopsided) (by_length "bb")
    (Z.min 2 (faiss.ntotal (index lopsided))) = Ok [(1%nat, 0%Q); (0%nat, 1%Q)] ∧
  documents lopsided !! 1%nat = None ∧
  getitem (documents lopsided) 1 = Raise (IndexError 1) ∧
  search by_length lopsided "bb" 2 = Ok [(doc_a, 1%Q)].
Proof. by vm_compute. Qed.

(** Equally distant embeddings are reported in insertion order. *)
Example search_ties_by_position :
  faiss.search (faiss.mkIndex 1 [[1%Q]; [3%Q]; [1%Q]; [2%Q]]) [2%Q] 3 =
    Ok [(3%nat, 0%Q); (0%nat, 1%Q); (1%nat, 1%Q)].
Proof. by vm_compute. Qed.

(** On a service without documents, a search finds nothing. *)
Example search_anything_on_fresh :
  search by_length fresh "anything" 5 = Ok [].
Proof. reflexivity. Qed.

(** Asking for more than there is returns everything, nearest first. *)
Example search_two_documents :
  search by_length two_documents "a" 7 = Ok [(doc_a, 0%Q); (doc_bb, 1%Q)].
Proof. by vm_compute. Qed.


(** * Further properties *)

(** ** Distances *)

Lemma fvec_L2sqr_nonneg x y : (0 <= faiss.fvec_L2sqr x y)%Q.
Proof.
  revert y. induction x as [|a x IH]; intros [|b y]; simpl; try lra.
  specialize (IH y).
  assert (0 <= (a - b) * (a - b))%Q as Hsq.
  { destruct (Qlt_le_dec (a - b) 0) as [Hneg|Hpos].
    - assert ((a - b) * (a - b) == (b - a) * (b - a))%Q as -> by ring.
      apply Qmult_le_0_compat; lra.
    - by apply Qmult_le_0_compat. }
  lra.
Qed.

Lemma fvec_L2sqr_self x : (faiss.fvec_L2sqr x x == 0)%Q.
Proof. induction x as [|a x IH]; simpl; [reflexivity|]. rewrite IH. ring. Qed.

(** ** The ranking behind a search *)

(** The first hit of a ranking is nearest to the query. *)
Lemma ranking_head q xs h l i x :
  faiss.rank (faiss.scan q 0 xs) = h :: l →
  xs !! i = Some x →
  (snd h <= faiss.fvec_L2sqr q x)%Q.
Proof.
  intros Hr Hx.
  pose proof (faiss_facts.rank_scan_sorted q 0 xs) as Hs. rewrite Hr in Hs.
  apply StronglySorted_cons in Hs as [Hh _].
  pose proof (faiss_facts.scan_holds q 0 xs i x Hx) as Hin.
  rewrite <- faiss_facts.rank_perm, Hr in Hin.
  apply elem_of_cons in Hin as [<-|Hin]; [simpl; lra|].
  rewrite Forall_forall in Hh. specialize (Hh _ Hin).
  destruct Hh as [?|[? _]]; simpl in *; lra.
Qed.

Lemma search_positions_NoDup ix q k : NoDup (map fst (faiss.nearest ix q k)).
Proof.
  unfold faiss.nearest.
  eapply sublist_NoDup; [|apply (fmap_sublist fst), sublist_take].
  change (NoDup (map fst (faiss.rank (faiss.scan q 0 (faiss.xb ix))))).
  rewrite faiss_facts.rank_perm, faiss_facts.scan_positions. apply NoDup_seq.
Qed.

Lemma length_omap_le {A B : Type} (f : A → option B) (l : list A) :
  (length (omap f l) ≤ length l)%nat.
Proof. induction l as [|a l IH]; csimpl; [done|]. destruct (f a); simpl; lia. Qed.

Lemma length_resolved docs (hits : list faiss.hit) :
  NoDup (map fst hits) → (length (omap (resolve docs) hits) ≤ length docs)%nat.
Proof.
  intros Hnd.
  assert (omap (resolve docs) hits =
          omap (resolve docs) (filter (fun h : faiss.hit => (fst h < length docs)%nat) hits)) as ->.
  { clear Hnd. induction hits as [|h hits IH]; [done|].
    rewrite filter_cons. case_decide as Hlt; csimpl.
    - by rewrite IH.
    - unfold resolve at 1. rewrite lookup_ge_None_2 by lia. exact IH. }
  etrans; [apply length_omap_le|].
  assert (fst <$> filter (fun h : faiss.hit => (fst h < length docs)%nat) hits
            ⊆+ seq 0 (length docs)) as Hsub.
  { apply NoDup_submseteq.
    - eapply sublist_NoDup; [exact Hnd|]. apply (fmap_sublist fst), sublist_filter.
    - intros i (h & -> & Hh)%list_elem_of_fmap.
      apply list_elem_of_filter in Hh as [Hlt _]. apply elem_of_seq. lia. }
  apply submseteq_length in Hsub. by rewrite length_fmap, length_seq in Hsub.
Qed.

Lemma resolved_sorted docs (hits : list faiss.hit) :
  StronglySorted hit_lt hits →
  StronglySorted (fun r1 r2 : Document * Q => (snd r1 <= snd r2)%Q)
                 (omap (resolve docs) hits).
Proof.
  induction 1 as [|h hits _ IH Hh]; csimpl; [constructor|].
  destruct (resolve docs h) as [r|] eqn:Hr; [|done].
  constructor; [done|].
  apply Forall_forall. intros r' (h' & Hin & Hr')%list_elem_of_omap.
  rewrite Forall_forall in Hh. specialize (Hh _ Hin).
  unfold resolve in Hr, Hr'.
  destruct (docs !! fst h); simplify_eq/=. destruct (docs !! fst h'); simplify_eq/=.
  destruct Hh as [?|[? _]]; lra.
Qed.

Lemma omap_lookup_seq {A : Type} (l1 l2 : list A) :
  omap (fun i : nat => (l1 ++ l2)%list !! i) (seq (length l1) (length l2)) = l2.
Proof.
  revert l1. induction l2 as [|a l2 IH]; intros l1; csimpl; [done|].
  rewrite list_lookup_middle by done. f_equal.
  specialize (IH (l1 ++ [a])%list). rewrite <- app_assoc, length_app in IH. simpl in IH.
  by rewrite Nat.add_1_r in IH.
Qed.

Lemma resolved_documents docs (hits : list faiss.hit) :
  fst <$> omap (resolve docs) hits = omap (fun i => docs !! i) (fst <$> hits).
Proof.
  induction hits as [|h hits IH]; csimpl; [done|].
  unfold resolve at 1. destruct (docs !! fst h); csimpl; by rewrite IH.
Qed.

(** ** More on searching *)

Section SearchFacts.

Variable encode : string → Embedding.

Lemma resolved_lengths (self : VectorDBService) (q : Embedding) (k : Z) :
  let results := omap (resolve (documents self))
                   (faiss.nearest (index self) q (Z.min k (faiss.ntotal (index self)))) in
  (length results ≤ Z.to_nat k)%nat ∧
  Z.of_nat (length results) ≤ faiss.ntotal (index self) ∧
  (length results ≤ length (documents self))%nat.
Proof.
  simpl. set (hits := faiss.nearest _ _ _).
  assert (length hits ≤ Z.to_nat k ∧ length hits ≤ length (faiss.xb (index self)))%nat
    as [Hk Hn].
  { subst hits. rewrite faiss_facts.length_nearest. unfold faiss.ntotal. lia. }
  pose proof (length_omap_le (resolve (documents self)) hits) as Hle.
  split; [lia|]. split; [unfold faiss.ntotal; lia|].
  apply length_resolved, search_positions_NoDup.
Qed.

(** X1.  Whatever the state of the service, when [k > 0] or the index
    is empty [search] returns, and returns no more results than asked
    for, than there are embeddings, or than there are documents; when
    [k <= 0] and the index holds embeddings it raises the index's
    assertion error. *)
Theorem search_bounded self query k :
  if bool_decide (0 < k ∨ faiss.ntotal (index self) = 0) then
    ∃ results,
      search encode self query k = Ok results ∧
      (length results ≤ Z.to_nat k)%nat ∧
      Z.of_nat (length results) ≤ faiss.ntotal (index self) ∧
      (length results ≤ length (documents self))%nat
  else search encode self query k = Raise AssertionError.
Proof.
  case_bool_decide as Hk; [|by apply search_rejects].
  eexists. split; [by apply search_resolves|]. apply resolved_lengths.
Qed.

Lemma resolved_origins (self : VectorDBService) (q : Embedding) (k : Z) :
  Forall (fun r : Document * Q =>
            ∃ i x, documents self !! i = Some (fst r) ∧
                   faiss.xb (index self) !! i = Some x ∧
                   snd r = faiss.fvec_L2sqr q x ∧
                   (0 <= snd r)%Q)
         (omap (resolve (documents self))
               (faiss.nearest (index self) q (Z.min k (faiss.ntotal (index self))))).
Proof.
  apply Forall_forall. intros r (h & Hin & Hr)%list_elem_of_omap.
  pose proof (faiss_facts.nearest_hits (index self) q
                (Z.min k (faiss.ntotal (index self)))) as Hhits.
  rewrite Forall_forall in Hhits. destruct (Hhits _ Hin) as (x & Hx & Hd).
  unfold resolve in Hr. destruct (documents self !! fst h) as [doc|] eqn:Hdoc; simplify_eq/=.
  exists (fst h), x. repeat split; [done..|].
  rewrite Hd. apply fvec_L2sqr_nonneg.
Qed.

(** X2.  Every result of [search] pairs a stored document with the
    squared distance between the query embedding and the embedding
    stored at the document's position; no distance is negative.
    ([search] returns when [k > 0] or the index is empty, and raises
    the index's assertion error otherwise.) *)
Theorem search_results_stored self query k :
  if bool_decide (0 < k ∨ faiss.ntotal (index self) = 0) then
    ∃ results,
      search encode self query k = Ok results ∧
      Forall (fun r : Document * Q =>
                ∃ i x, documents self !! i = Some (fst r) ∧
                       faiss.xb (index self) !! i = Some x ∧
                       snd r = faiss.fvec_L2sqr (encode query) x ∧
                       (0 <= snd r)%Q)
             results
  else search encode self query k = Raise AssertionError.
Proof.
  case_bool_decide as Hk; [|by apply search_rejects].
  eexists. split; [by apply search_resolves|]. apply resolved_origins.
Qed.

(** X3.  Whatever the state of the service, the distances of the
    results of [search] never decrease along the list.  ([search]
    returns when [k > 0] or the index is empty, and raises the index's
    assertion error otherwise.) *)
Theorem search_results_ascending self query k :
  if bool_decide (0 < k ∨ faiss.ntotal (index self) = 0) then
    ∃ results,
      search encode self query k = Ok results ∧
      StronglySorted (fun r1 r2 : Document * Q => (snd r1 <= snd r2)%Q) results
  else search encode self query k = Raise AssertionError.
Proof.
  case_bool_decide as Hk; [|by apply search_rejects].
  eexists. split; [by apply search_resolves|].
  apply resolved_sorted, faiss_facts.nearest_sorted.
Qed.

(** X4.  When the counts agree and [k] is at least the number of
    embeddings, [search] returns every stored document, each once. *)
Theorem search_whole_corpus self query k :
  consistent self →
  faiss.ntotal (index self) ≤ k →
  ∃ results,
    search encode self query k = Ok results ∧
    map fst results ≡ₚ documents self.
Proof.
  intros Hc Hk. eexists. split.
  { apply search_resolves. unfold faiss.ntotal in *. lia. }
  change (map fst ?l) with (fst <$> l). rewrite resolved_documents.
  unfold consistent, faiss.ntotal in *.
  assert (fst <$> faiss.nearest (index self) (encode query)
                    (Z.min k (Z.of_nat (length (faiss.xb (index self)))))
          ≡ₚ seq 0 (length (documents self))) as ->.
  { unfold faiss.nearest.
    rewrite take_ge by (rewrite faiss_facts.length_rank, faiss_facts.length_scan; lia).
    change (map fst (faiss.rank (faiss.scan (encode query) 0 (faiss.xb (index self))))
            ≡ₚ seq 0 (length (documents self))).
    rewrite faiss_facts.rank_perm, faiss_facts.scan_positions.
    by replace (length (faiss.xb (index self))) with (length (documents self)) by lia. }
  assert (omap (fun i : nat => documents self !! i) (seq 0 (length (documents self)))
          = documents self) as Hall by apply (omap_lookup_seq [] (documents self)).
  by rewrite Hall.
Qed.

End SearchFacts.

(** ** The first result *)

Section Nearest.

Variable encode : string → Embedding.

(** The head of a search that has something to return. *)
Lemma search_head self query k :
  consistent self →
  0 < k →
  0 < faiss.ntotal (index self) →
  ∃ i x doc rest,
    faiss.xb (index self) !! i = Some x ∧
    documents self !! i = Some doc ∧
    search encode self query k = Ok ((doc, faiss.fvec_L2sqr (encode query) x) :: rest) ∧
    ∀ j y, faiss.xb (index self) !! j = Some y →
           (faiss.fvec_L2sqr (encode query) x <= faiss.fvec_L2sqr (encode query) y)%Q.
Proof.
  intros Hc Hk Hn. unfold consistent, faiss.ntotal in *.
  rewrite search_resolves by by left. unfold faiss.nearest, faiss.ntotal.
  destruct (faiss.rank (faiss.scan (encode query) 0 (faiss.xb (index self))))
    as [|h ranking] eqn:Hr.
  { apply (f_equal length) in Hr.
    rewrite faiss_facts.length_rank, faiss_facts.length_scan in Hr. simpl in Hr. lia. }
  pose proof (faiss_facts.ranking_stored (encode query) (faiss.xb (index self))) as Hhits.
  rewrite Hr in Hhits. apply Forall_cons in Hhits as [(x & Hx & Hd) _].
  destruct (documents self !! fst h) as [doc|] eqn:Hdoc.
  2:{ apply lookup_ge_None in Hdoc. apply lookup_lt_Some in Hx. lia. }
  destruct (Z.to_nat (Z.min k (Z.of_nat (length (faiss.xb (index self))))))
    as [|n] eqn:Hmin; [lia|].
  exists (fst h), x, doc. eexists. split; [done|]. split; [done|]. split.
  - csimpl. unfold resolve at 1. rewrite Hdoc. csimpl. by rewrite Hd.
  - intros j y Hy. rewrite <- Hd. by eapply ranking_head.
Qed.

(** X5.  When the counts agree, there is an embedding and [k > 0], the
    first result of [search] is a document whose embedding is as near
    to the query as any stored embedding. *)
Theorem search_first_is_nearest self query k :
  consistent self →
  0 < k →
  0 < faiss.ntotal (index self) →
  ∃ doc dist rest,
    search encode self query k = Ok ((doc, dist) :: rest) ∧
    ∀ j y, faiss.xb (index self) !! j = Some y →
           (dist <= faiss.fvec_L2sqr (encode query) y)%Q.
Proof.
  intros Hc Hk Hn.
  destruct (search_head self query k Hc Hk Hn) as (i & x & doc & rest & _ & _ & Hs & Hmin).
  by exists doc, (faiss.fvec_L2sqr (encode query) x), rest.
Qed.

(** X6.  After [add_document], a search for the same text with
    [k > 0] has a first result at distance zero. *)
Theorem search_own_text self text metadata k :
  consistent self →
  0 < k →
  ∃ doc dist rest,
    search encode (add_document encode self text metadata) text k
      = Ok ((doc, dist) :: rest) ∧
    (dist == 0)%Q.
Proof.
  intros Hc Hk.
  destruct (search_head (add_document encode self text metadata) text k)
    as (i & x & doc & rest & _ & _ & Hs & Hmin).
  { by apply add_document_consistent. }
  { done. }
  { unfold faiss.ntotal. simpl. rewrite length_app. simpl. lia. }
  exists doc, (faiss.fvec_L2sqr (encode text) x), rest. split; [done|].
  specialize (Hmin (length (faiss.xb (index self))) (encode text)).
  simpl in Hmin. rewrite list_lookup_middle in Hmin by done. specialize (Hmin eq_refl).
  pose proof (fvec_L2sqr_self (encode text)).
  pose proof (fvec_L2sqr_nonneg (encode text) x). lra.
Qed.

(** X7.  If moreover every embedding stored before was at a positive
    distance from the text's, that first result is the document just
    added. *)
Theorem search_own_text_first self text metadata k :
  consistent self →
  0 < k →
  (∀ y, y ∈ faiss.xb (index self) → (0 < faiss.fvec_L2sqr (encode text) y)%Q) →
  ∃ dist rest,
    search encode (add_document encode self text metadata) text k
      = Ok ((mkDocument text (or_empty metadata), dist) :: rest) ∧
    (dist == 0)%Q.
Proof.
  intros Hc Hk Hfar.
  destruct (search_head (add_document encode self text metadata) text k)
    as (i & x & doc & rest & Hx & Hdoc & Hs & Hmin).
  { by apply add_document_consistent. }
  { done. }
  { unfold faiss.ntotal. simpl. rewrite length_app. simpl. lia. }
  assert (faiss.fvec_L2sqr (encode text) x == 0)%Q as Hzero.
  { specialize (Hmin (length (faiss.xb (index self))) (encode text)).
    simpl in Hmin. rewrite list_lookup_middle in Hmin by done. specialize (Hmin eq_refl).
    pose proof (fvec_L2sqr_self (encode text)).
    pose proof (fvec_L2sqr_nonneg (encode text) x). lra. }
  simpl in Hx, Hdoc.
  assert (i = length (documents self)) as ->.
  { unfold consistent, faiss.ntotal in Hc.
    destruct (decide (i < length (faiss.xb (index self)))%nat) as [Hlt|Hge].
    - rewrite lookup_app_l in Hx by done.
      apply list_elem_of_lookup_2, Hfar in Hx. lra.
    - apply lookup_lt_Some in Hx. rewrite length_app in Hx. simpl in Hx. lia. }
  rewrite list_lookup_middle in Hdoc by done. injection Hdoc as <-.
  by exists (faiss.fvec_L2sqr (encode text) x), rest.
Qed.

End Nearest.

(** ** More on adding documents *)

Section Adding.

Variable encode : string → Embedding.

(** X8.  Metadata passed to [add_document] is stored as it is; an
    empty mapping stays an empty mapping. *)
Theorem add_document_keeps_metadata self text (m : Metadata) :
  documents (add_document encode self text (Some m)) =
    (documents self ++ [mkDocument text m])%list.
Proof.
  unfold add_document, or_empty. simpl. by case_decide; subst.
Qed.

(** X9.  [add_document] only appends: the documents and embeddings
    stored before keep their positions, the new pair sits at the next
    position of both collections, and the index grows by one. *)
Theorem add_document_appends self text metadata :
  let self' := add_document encode self text metadata in
  documents self `prefix_of` documents self' ∧
  faiss.xb (index self) `prefix_of` faiss.xb (index self') ∧
  documents self' !! length (documents self) = Some (mkDocument text (or_empty metadata)) ∧
  faiss.xb (index self') !! length (faiss.xb (index self)) = Some (encode text) ∧
  faiss.ntotal (index self') = faiss.ntotal (index self) + 1 ∧
  faiss.d (index self') = faiss.d (index self).
Proof.
  simpl. repeat split.
  - by apply prefix_app_r.
  - by apply prefix_app_r.
  - by rewrite list_lookup_middle.
  - by rewrite list_lookup_middle.
  - unfold faiss.ntotal. simpl. rewrite length_app. simpl. lia.
Qed.

(** X10.  When [k > 0] or the index is empty,
    [get_relevant_knowledge] returns at most [k] documents, and only
    stored ones; when [k <= 0] and the index holds embeddings it
    raises the index's assertion error. *)
Theorem get_relevant_knowledge_stored self symptoms k :
  if bool_decide (0 < k ∨ faiss.ntotal (index self) = 0) then
    ∃ docs,
      get_relevant_knowledge encode self symptoms k = Ok docs ∧
      (length docs ≤ Z.to_nat k)%nat ∧
      Forall (fun doc => doc ∈ documents self) docs
  else get_relevant_knowledge encode self symptoms k = Raise AssertionError.
Proof.
  unfold get_relevant_knowledge.
  case_bool_decide as Hk; [|by rewrite search_rejects].
  rewrite search_resolves by done. simpl.
  destruct (resolved_lengths self (encode symptoms) k) as (Hlen & _).
  pose proof (resolved_origins self (encode symptoms) k) as Hst.
  eexists. split; [done|]. split; [by rewrite length_map|].
  apply Forall_forall. intros doc Hin. apply list_elem_of_In, in_map_iff in Hin.
  destruct Hin as ([doc' dist] & <- & Hin). apply list_elem_of_In in Hin.
  rewrite Forall_forall in Hst. destruct (Hst _ Hin) as (i & _ & Hi & _).
  by eapply list_elem_of_lookup_2.
Qed.

(** X11.  Seeding appends: the documents and embeddings of the service
    stay where they are and the ten starter documents follow them,
    whether or not they are there already; then the service is saved. *)
Theorem seeding_appends fault self disk :
  ∃ self',
    _initialize_medical_knowledge encode fault self disk = (Ok self', saved fault self' disk) ∧
    documents self' = (documents self ++ starter_documents)%list ∧
    faiss.xb (index self') = (faiss.xb (index self) ++ map encode starter_texts)%list.
Proof.
  exists (add_all encode self medical_knowledge). split.
  - unfold _initialize_medical_knowledge, bind. by rewrite save_saved.
  - rewrite add_all_appends. cbn [documents index faiss.xb].
    rewrite medical_knowledge_kept. split; [done|].
    unfold starter_texts. by rewrite map_map.
Qed.

End Adding.

(** ** More on the directory *)

(** X12.  [load] never raises and never writes: it leaves the
    directory as it is and returns either what the two files hold or
    the empty service. *)
Theorem load_never_writes disk :
  ∃ self,
    load disk = (Ok self, disk) ∧
    (self = fresh ∨
     (index_file disk = Holds (index self) ∧ data_file disk = Holds (documents self))).
Proof.
  eexists. split; [apply load_loaded|].
  destruct (index_file disk); [by left..|].
  destruct (data_file disk); [by left..|]. by right.
Qed.

(** X13.  A service constructed where there is no index file, whose
    save goes through, is found again by every later construction on
    the directory it leaves: nothing is seeded twice and the directory
    is not touched. *)
Theorem construct_then_restart (encode : string → Embedding) disk :
  index_file disk = Absent →
  ∃ self disk',
    __init__ encode None disk = (Ok self, disk') ∧
    ∀ fault, __init__ encode fault disk' = (Ok self, disk').
Proof.
  intros Habsent.
  destruct (seeded encode None disk) as (self & Hrun & _).
  exists self, (saved None self disk). unfold __init__. rewrite Habsent. simpl.
  split; [exact Hrun|]. intros fault. rewrite load_loaded. simpl. by destruct self.
Qed.

(** X14.  When the index file exists but the two files do not both
    deserialize, the constructor gives the empty service, seeds
    nothing and leaves the directory as it is. *)
Theorem construct_on_damaged_files (encode : string → Embedding) fault disk :
  file_exists (index_file disk) = true →
  loadable disk = false →
  __init__ encode fault disk = (Ok fresh, disk).
Proof.
  intros Hex Hl. unfold __init__. rewrite Hex. by apply load_fallback.
Qed.

(** X15.  A [save] that breaks off while writing the index file or
    while pickling the documents is swallowed, and the next [load]
    finds the empty service: what had been saved before is gone. *)
Theorem interrupted_write_loses_saved_data fault self disk :
  fault = index_write_fails ∨ fault = data_dump_fails →
  ∃ disk',
    save (Some fault) self disk = (Ok (), disk') ∧
    load disk' = (Ok fresh, disk').
Proof.
  intros Hf. exists (saved (Some fault) self disk). split; [apply save_saved|].
  apply load_fallback. by destruct Hf as [->| ->].
Qed.

(** ** Embeddings and texts along a history *)

Section Alignment.

Variable encode : string → Embedding.

Lemma add_document_aligned self text metadata :
  aligned encode self → aligned encode (add_document encode self text metadata).
Proof.
  unfold aligned. simpl. intros ->. by rewrite map_app.
Qed.

Lemma add_all_aligned self docs :
  aligned encode self → aligned encode (add_all encode self docs).
Proof.
  unfold add_all. revert self. induction docs as [|doc docs IH]; intros self Ha; simpl.
  - done.
  - by apply IH, add_document_aligned.
Qed.

Lemma saved_aligned fault self disk :
  not_between_files fault → aligned encode self → aligned_disk encode disk →
  aligned_disk encode (saved fault self disk).
Proof.
  intros Hf Hs Hd ix docs. unfold not_between_files in Hf.
  destruct fault as [[]|]; simpl; try congruence. apply Hd.
Qed.

Lemma loaded_aligned disk self disk' :
  aligned_disk encode disk → load disk = (Ok self, disk') →
  aligned encode self ∧ disk' = disk.
Proof.
  intros Hd. rewrite load_loaded. intros [= <- <-]. split; [|done].
  destruct (index_file disk) as [| |ix] eqn:Hi; [done..|].
  destruct (data_file disk) as [| |docs] eqn:Hdocs; [done..|].
  by apply Hd.
Qed.

Lemma constructed_aligned fault disk self disk' :
  not_between_files fault → aligned_disk encode disk →
  __init__ encode fault disk = (Ok self, disk') →
  aligned encode self ∧ aligned_disk encode disk'.
Proof.
  intros Hf Hd. unfold __init__. destruct (file_exists (index_file disk)).
  - intros Hload. apply loaded_aligned in Hload as [? ->]; done.
  - unfold _initialize_medical_knowledge, bind. rewrite save_saved.
    intros [= <- <-].
    assert (aligned encode (add_all encode (mkService (faiss.new dimension) []) medical_knowledge))
      as Ha by by apply add_all_aligned.
    split; [done|]. by apply saved_aligned.
Qed.

Lemma reachable_aligned disk0 w :
  aligned_disk encode disk0 →
  reachable encode not_between_files disk0 w →
  aligned encode (fst w) ∧ aligned_disk encode (snd w).
Proof.
  intros Hd0. induction 1 as [fault self disk Hf Hinit|w w' _ [Ha Hd] Hstep].
  - by eapply constructed_aligned.
  - destruct Hstep as [self disk text metadata|self disk fault disk' Hf Hsave
                      |self disk self' disk' Hload|self disk fault self' disk' Hf Hinit];
      simpl in *.
    + split; [by apply add_document_aligned|done].
    + rewrite save_saved in Hsave. injection Hsave as <-.
      split; [done|]. by apply saved_aligned.
    + apply loaded_aligned in Hload as [? ->]; done.
    + by eapply constructed_aligned.
Qed.

(** X16.  Along a history in which no [save] breaks off between its
    two files, started on a directory whose files (if both readable)
    pair each embedding with the text it encodes, every stored
    embedding is the embedding of the text of the document at the same
    position. *)
Theorem embeddings_match_texts disk0 w :
  aligned_disk encode disk0 →
  reachable encode not_between_files disk0 w →
  faiss.xb (index (fst w)) = map (fun doc => encode (text doc)) (documents (fst w)).
Proof. intros Hd0 Hr. by destruct (reachable_aligned disk0 w Hd0 Hr). Qed.

(** X17.  On such a service, the distance reported with a document is
    the squared distance between the embedding of the query and the
    embedding of that document's text.  ([search] returns when
    [k > 0] or the index is empty, and raises the index's assertion
    error otherwise.) *)
Theorem search_distance_of_text self query k :
  aligned encode self →
  if bool_decide (0 < k ∨ faiss.ntotal (index self) = 0) then
    ∃ results,
      search encode self query k = Ok results ∧
      Forall (fun r : Document * Q =>
                snd r = faiss.fvec_L2sqr (encode query) (encode (text (fst r))))
             results
  else search encode self query k = Raise AssertionError.
Proof.
  intros Ha. case_bool_decide as Hk; [|by apply search_rejects].
  eexists. split; [by apply search_resolves|].
  eapply Forall_impl; [apply resolved_origins|].
  intros [doc dist] (i & x & Hdoc & Hx & Hd & _). simpl in *.
  unfold aligned in Ha. rewrite Ha in Hx.
  change (map ?f ?l) with (f <$> l) in Hx.
  rewrite list_lookup_fmap, Hdoc in Hx. simpl in Hx. by injection Hx as <-.
Qed.

End Alignment.

(** ** Instances of the further properties *)

Lemma search_whole_corpus_witness :
  consistent two_documents ∧
  faiss.ntotal (index two_documents) ≤ 5 ∧
  ∃ results,
    search by_length two_documents "bb" 5 = Ok results ∧
    map fst results ≡ₚ documents two_documents.
Proof.
  split; [reflexivity|]. split; [by vm_compute|].
  apply (search_whole_corpus by_length two_documents "bb" 5); [reflexivity|by vm_compute].
Defined.

Lemma search_first_is_nearest_witness :
  consistent two_documents ∧ 0 < 1 ∧ 0 < faiss.ntotal (index two_documents) ∧
  ∃ doc dist rest,
    search by_length two_documents "bb" 1 = Ok ((doc, dist) :: rest) ∧
    ∀ j y, faiss.xb (index two_documents) !! j = Some y →
           (dist <= faiss.fvec_L2sqr (by_length "bb") y)%Q.
Proof.
  split; [reflexivity|]. split; [lia|]. split; [reflexivity|].
  apply (search_first_is_nearest by_length two_documents "bb" 1); [reflexivity|lia|reflexivity].
Defined.

Lemma search_own_text_witness :
  consistent one_document ∧ 0 < 2 ∧
  ∃ doc dist rest,
    search by_length (add_document by_length one_document "a" None) "a" 2
      = Ok ((doc, dist) :: rest) ∧
    (dist == 0)%Q.
Proof.
  split; [reflexivity|]. split; [lia|].
  apply (search_own_text by_length one_document "a" None 2); [reflexivity|lia].
Defined.

Lemma search_own_text_first_witness :
  consistent one_document ∧ 0 < 2 ∧
  (∀ y, y ∈ faiss.xb (index one_document) →
        (0 < faiss.fvec_L2sqr (by_length "bb") y)%Q) ∧
  ∃ dist rest,
    search by_length (add_document by_length one_document "bb" None) "bb" 2
      = Ok ((mkDocument "bb" (or_empty None), dist) :: rest) ∧
    (dist == 0)%Q.
Proof.
  assert (∀ y, y ∈ faiss.xb (index one_document) →
               (0 < faiss.fvec_L2sqr (by_length "bb") y)%Q) as Hfar.
  { intros y Hy. apply list_elem_of_singleton in Hy as ->. reflexivity. }
  split; [reflexivity|]. split; [lia|]. split; [exact Hfar|].
  apply (search_own_text_first by_length one_document "bb" None 2);
    [reflexivity|lia|exact Hfar].
Defined.

Lemma construct_then_restart_witness :
  index_file no_artifacts = Absent ∧
  ∃ self disk',
    __init__ by_length None no_artifacts = (Ok self, disk') ∧
    ∀ fault, __init__ by_length fault disk' = (Ok self, disk').
Proof.
  split; [reflexivity|].
  apply (construct_then_restart by_length no_artifacts). reflexivity.
Defined.

Lemma construct_on_damaged_files_witness :
  file_exists (index_file damaged_disk) = true ∧
  loadable damaged_disk = false ∧
  __init__ by_length None damaged_disk = (Ok fresh, damaged_disk).
Proof.
  split; [reflexivity|]. split; [reflexivity|].
  apply (construct_on_damaged_files by_length None damaged_disk); reflexivity.
Defined.

Lemma interrupted_write_loses_saved_data_witness :
  (data_dump_fails = index_write_fails ∨ data_dump_fails = data_dump_fails) ∧
  ∃ disk',
    save (Some data_dump_fails) two_documents seeded_disk = (Ok (), disk') ∧
    load disk' = (Ok fresh, disk').
Proof.
  split; [by right|].
  apply (interrupted_write_loses_saved_data data_dump_fails two_documents seeded_disk).
  by right.
Defined.

Lemma embeddings_match_texts_witness :
  aligned_disk by_length no_artifacts ∧
  reachable by_length not_between_files no_artifacts (grown_service, seeded_disk) ∧
  faiss.xb (index (fst (grown_service, seeded_disk))) =
    map (fun doc => by_length (text doc)) (documents (fst (grown_service, seeded_disk))).
Proof.
  assert (aligned_disk by_length no_artifacts) as Hd by (intros ix docs Hix; discriminate Hix).
  assert (reachable by_length not_between_files no_artifacts (grown_service, seeded_disk)) as Hr.
  { apply (reachable_step _ _ _ (seeded_service, seeded_disk)).
    - apply (reachable_construct _ _ _ None); [discriminate|reflexivity].
    - apply step_add_document. }
  split; [exact Hd|]. split; [exact Hr|].
  exact (embeddings_match_texts by_length no_artifacts (grown_service, seeded_disk) Hd Hr).
Defined.

Lemma search_distance_of_text_witness :
  aligned by_length two_documents ∧
  ∃ results,
    search by_length two_documents "bb" 2 = Ok results ∧
    Forall (fun r : Document * Q =>
              snd r = faiss.fvec_L2sqr (by_length "bb") (by_length (text (fst r))))
           results.
Proof.
  split; [reflexivity|].
  exact (search_distance_of_text by_length two_documents "bb" 2 eq_refl).
Defined.
